(** * llm-chat: the [User] / [Chat] data model of [models.py]

    [models.py] holds no functions: it is two declarative classes whose bodies
    call [Column], [ForeignKey] and [relationship].  The embedding keeps that
    shape.  The three constructors are functions over their positional and
    keyword arguments (with the defaults the calls leave implicit), a class
    is the list of its attribute assignments, and the table a class maps to
    is computed from that list.

    The declarations are then read with the relational meaning of the
    constraints they name: PRIMARY KEY, NOT NULL (the [nullable] flag),
    UNIQUE (which, as in standard SQL, constrains present values only) and
    FOREIGN KEY (which checks present values only).  A database state is a
    list of rows per table; [valid_db] is the executable check of every
    declared constraint, and the two [relationship] attributes are loaded by
    joining on the declared foreign key. *)

From Stdlib Require Import ZArith List String Ascii Bool Lia FinFun.
Import ListNotations.
Open Scope string_scope.

(** ** Keyword arguments *)

Fixpoint kw_get {A : Type} (kw : list (string * A)) (k : string) : option A :=
  match kw with
  | [] => None
  | (k', v) :: rest => if String.eqb k' k then Some v else kw_get rest k
  end.

Definition kw_default {A : Type} (kw : list (string * A)) (k : string) (d : A) : A :=
  match kw_get kw k with
  | Some v => v
  | None => d
  end.

(** ** The declaration layer ([sqlalchemy], as far as [models.py] uses it) *)

Module sqlalchemy.

(** Column types.  [models.py] passes the bare classes [Integer], [String]
    and [Text]; a bare [String] or [Text] is one with [length=None]. *)
Inductive TypeEngine : Type :=
| Integer
| String (length : option nat)
| Text (length : option nat).

Definition TypeEngine_eqb (a b : TypeEngine) : bool :=
  match a, b with
  | Integer, Integer => true
  | String None, String None => true
  | String (Some n), String (Some m) => Nat.eqb n m
  | Text None, Text None => true
  | Text (Some n), Text (Some m) => Nat.eqb n m
  | _, _ => false
  end.

Definition type_length (ty : TypeEngine) : option nat :=
  match ty with
  | Integer => None
  | String len => len
  | Text len => len
  end.

Record foreign_key : Type := mk_foreign_key {
  colspec : string;
  ondelete : option string;
  onupdate : option string
}.

(** [ForeignKey(colspec, ondelete=None, onupdate=None)] *)
Definition ForeignKey (spec : string) (kw : list (string * string)) : foreign_key :=
  {| colspec := spec;
     ondelete := kw_get kw "ondelete";
     onupdate := kw_get kw "onupdate" |}.

Record column : Type := mk_column {
  type_ : TypeEngine;
  foreign_keys : list foreign_key;
  primary_key : bool;
  nullable : bool;
  unique : bool;
  index : bool
}.

(** [Column(type_, *args, primary_key=False, nullable=not primary_key,
    unique=None, index=None)]; an unset [unique] or [index] is no constraint
    and no index. *)
Definition Column (ty : TypeEngine) (args : list foreign_key)
                  (kw : list (string * bool)) : column :=
  let pk := kw_default kw "primary_key" false in
  {| type_ := ty;
     foreign_keys := args;
     primary_key := pk;
     nullable := kw_default kw "nullable" (negb pk);
     unique := kw_default kw "unique" false;
     index := kw_default kw "index" false |}.

(** Splitting a comma-separated option string, blanks dropped. *)
Fixpoint tokens_from (cur s : string) : list string :=
  match s with
  | EmptyString => [cur]
  | String.String c rest =>
      if Ascii.eqb c "," then cur :: tokens_from EmptyString rest
      else if Ascii.eqb c " " then tokens_from cur rest
      else tokens_from (cur ++ String.String c EmptyString) rest
  end.

Definition tokens (s : string) : list string := tokens_from EmptyString s.

Record relationship_property : Type := mk_relationship {
  argument : string;
  back_populates : option string;
  cascade : list string
}.

(** [relationship(argument, back_populates=None, cascade="save-update, merge")] *)
Definition relationship (arg : string) (kw : list (string * string))
  : relationship_property :=
  {| argument := arg;
     back_populates := kw_get kw "back_populates";
     cascade := tokens (kw_default kw "cascade" "save-update, merge") |}.

(** An attribute assigned in a declarative class body. *)
Inductive attribute : Type :=
| Str (s : string)
| Col (c : column)
| Rel (r : relationship_property).

Record class_decl : Type := mk_class {
  cls_name : string;
  cls_body : list (string * attribute)
}.

End sqlalchemy.

Import sqlalchemy.

(** ** [models.py] *)

Module models.

Definition User : class_decl :=
  {| cls_name := "User";
     cls_body :=
       [ ("__tablename__", Str "users");
         ("id", Col (Column Integer [] [("primary_key", true); ("index", true)]));
         ("username", Col (Column (String None) [] [("unique", true); ("index", true)]));
         ("email", Col (Column (String None) [] [("unique", true); ("index", true)]));
         ("hashed_password", Col (Column (String None) [] []));
         ("chats", Rel (relationship "Chat" [("back_populates", "owner")])) ] |}.

Definition Chat : class_decl :=
  {| cls_name := "Chat";
     cls_body :=
       [ ("__tablename__", Str "chats");
         ("id", Col (Column Integer [] [("primary_key", true); ("index", true)]));
         ("owner_id", Col (Column Integer [ForeignKey "users.id" []] []));
         ("message", Col (Column (Text None) [] []));
         ("owner", Rel (relationship "User" [("back_populates", "chats")])) ] |}.

(** The classes registered on [Base], in declaration order. *)
Definition registry : list class_decl := [User; Chat].

End models.

Import models.

(** ** What the declarative layer derives from a class body *)

Definition tablename (cls : class_decl) : string :=
  match kw_get (cls_body cls) "__tablename__" with
  | Some (Str s) => s
  | _ => EmptyString
  end.

Fixpoint columns_of (body : list (string * attribute)) : list (string * column) :=
  match body with
  | [] => []
  | (n, Col c) :: rest => (n, c) :: columns_of rest
  | _ :: rest => columns_of rest
  end.

Fixpoint relationships_of (body : list (string * attribute))
  : list (string * relationship_property) :=
  match body with
  | [] => []
  | (n, Rel r) :: rest => (n, r) :: relationships_of rest
  | _ :: rest => relationships_of rest
  end.

Definition columns (cls : class_decl) : list (string * column) :=
  columns_of (cls_body cls).

Definition relationships (cls : class_decl)
  : list (string * relationship_property) :=
  relationships_of (cls_body cls).

Definition column_names (cls : class_decl) : list string :=
  map fst (columns cls).

Definition get_column (cls : class_decl) (name : string) : option column :=
  kw_get (columns cls) name.

Definition get_relationship (cls : class_decl) (name : string)
  : option relationship_property :=
  kw_get (relationships cls) name.

(** A primary key is a uniqueness constraint of its own. *)
Definition enforces_unique (c : column) : bool :=
  primary_key c || unique c.

(** [colspec] is ["table.column"]. *)
Fixpoint split_dot (s : string) : option (string * string) :=
  match s with
  | EmptyString => None
  | String.String c rest =>
      if Ascii.eqb c "." then Some (EmptyString, rest)
      else match split_dot rest with
           | Some (t, col) => Some (String.String c t, col)
           | None => None
           end
  end.

Definition find_table (reg : list class_decl) (t : string) : option class_decl :=
  find (fun cls => String.eqb (tablename cls) t) reg.

Definition find_class (reg : list class_decl) (n : string) : option class_decl :=
  find (fun cls => String.eqb (cls_name cls) n) reg.

(** The mapped class and column a foreign key points at. *)
Definition resolve (reg : list class_decl) (fk : foreign_key)
  : option (class_decl * string) :=
  match split_dot (colspec fk) with
  | Some (t, col) =>
      match find_table reg t with
      | Some cls => Some (cls, col)
      | None => None
      end
  | None => None
  end.

(** The declared ON DELETE action of a foreign key. *)
Inductive on_delete_action : Type :=
| Cascade | Restrict | SetNull | SetDefault | NoAction | OtherAction (s : string).

Definition on_delete (fk : foreign_key) : option on_delete_action :=
  match ondelete fk with
  | None => None
  | Some s =>
      Some (if String.eqb s "CASCADE" then Cascade
            else if String.eqb s "RESTRICT" then Restrict
            else if String.eqb s "SET NULL" then SetNull
            else if String.eqb s "SET DEFAULT" then SetDefault
            else if String.eqb s "NO ACTION" then NoAction
            else OtherAction s)
  end.

(** Whether deleting the parent is cascaded to the related objects by the
    relationship itself. *)
Definition cascades_delete (r : relationship_property) : bool :=
  existsb (fun t => String.eqb t "delete" || String.eqb t "all"
                    || String.eqb t "delete-orphan") (cascade r).

(** ** Rows and database states *)

(** A stored value: [None], an [int] or a [str]. *)
Inductive Value : Type :=
| Null
| IntV (n : Z)
| StrV (s : string).

Definition Value_eqb (a b : Value) : bool :=
  match a, b with
  | Null, Null => true
  | IntV n, IntV m => Z.eqb n m
  | StrV s, StrV t => String.eqb s t
  | _, _ => false
  end.

Definition nonnull (v : Value) : bool :=
  match v with
  | Null => false
  | _ => true
  end.

(** A row holds one value per column of its table, in declaration order; a
    database state gives the rows of every table by table name. *)
Definition Row : Type := list Value.
Definition DB : Type := string -> list Row.

Definition empty_db : DB := fun _ => [].

Definition db_set (db : DB) (t : string) (rs : list Row) : DB :=
  fun t' => if String.eqb t' t then rs else db t'.

Definition rows (db : DB) (cls : class_decl) : list Row := db (tablename cls).

Fixpoint index_of (names : list string) (n : string) : option nat :=
  match names with
  | [] => None
  | m :: rest =>
      if String.eqb m n then Some O
      else match index_of rest n with
           | Some i => Some (S i)
           | None => None
           end
  end.

(** Reading a column attribute of a mapped object. *)
Definition field (cls : class_decl) (r : Row) (name : string) : Value :=
  match index_of (column_names cls) name with
  | Some i => nth i r Null
  | None => Null
  end.

Fixpoint list_eqb {A : Type} (eqb : A -> A -> bool) (l1 l2 : list A) : bool :=
  match l1, l2 with
  | [], [] => true
  | a :: l1', b :: l2' => eqb a b && list_eqb eqb l1' l2'
  | _, _ => false
  end.

Fixpoint nodupb {A : Type} (eqb : A -> A -> bool) (l : list A) : bool :=
  match l with
  | [] => true
  | a :: rest => negb (existsb (eqb a) rest) && nodupb eqb rest
  end.

(** ** The declared constraints, checked on a state *)

Definition fits (len : option nat) (s : string) : bool :=
  match len with
  | None => true
  | Some n => Nat.leb (String.length s) n
  end.

Definition type_accepts (ty : TypeEngine) (v : Value) : bool :=
  match v, ty with
  | Null, _ => true
  | IntV _, Integer => true
  | StrV s, String len => fits len s
  | StrV s, Text len => fits len s
  | _, _ => false
  end.

(** FOREIGN KEY: a present value occurs in the referenced column. *)
Definition references (reg : list class_decl) (db : DB)
                      (fk : foreign_key) (v : Value) : bool :=
  match v with
  | Null => true
  | _ =>
      match resolve reg fk with
      | Some (tgt, col) =>
          existsb (fun r' => Value_eqb (field tgt r' col) v) (rows db tgt)
      | None => false
      end
  end.

Definition cell_ok (reg : list class_decl) (db : DB) (c : column) (v : Value) : bool :=
  type_accepts (type_ c) v
  && (nullable c || nonnull v)
  && forallb (fun fk => references reg db fk v) (foreign_keys c).

Definition row_ok (reg : list class_decl) (db : DB) (cls : class_decl) (r : Row) : bool :=
  Nat.eqb (List.length r) (List.length (columns cls))
  && forallb (fun cv => cell_ok reg db (snd (fst cv)) (snd cv))
             (combine (columns cls) r).

(** UNIQUE: the present values of the column are pairwise different. *)
Definition unique_ok (cls : class_decl) (rs : list Row) : bool :=
  forallb (fun nc =>
             if unique (snd nc)
             then nodupb Value_eqb
                    (filter nonnull (map (fun r => field cls r (fst nc)) rs))
             else true)
          (columns cls).

Definition pk_names (cls : class_decl) : list string :=
  map fst (filter (fun nc => primary_key (snd nc)) (columns cls)).

Definition pk_tuple (cls : class_decl) (r : Row) : list Value :=
  map (field cls r) (pk_names cls).

(** PRIMARY KEY: no two rows agree on the primary-key columns. *)
Definition pk_ok (cls : class_decl) (rs : list Row) : bool :=
  nodupb (list_eqb Value_eqb) (map (pk_tuple cls) rs).

Definition table_ok (reg : list class_decl) (db : DB) (cls : class_decl) : bool :=
  forallb (row_ok reg db cls) (rows db cls)
  && unique_ok cls (rows db cls)
  && pk_ok cls (rows db cls).

Definition valid_in (reg : list class_decl) (db : DB) : bool :=
  forallb (table_ok reg db) reg.

(** A valid state of the schema of [models.py]. *)
Definition valid_db (db : DB) : bool := valid_in registry db.

(** ** Loading a [relationship] attribute *)

Inductive loaded : Type :=
| Scalar (o : option Row)
| Collection (l : list Row).

(** The first foreign key of [src] that points into the table of [dst]:
    the local column and the referenced column. *)
Definition fk_between (reg : list class_decl) (src dst : class_decl)
  : option (string * string) :=
  let hits :=
    flat_map (fun nc =>
      flat_map (fun fk =>
        match resolve reg fk with
        | Some (tgt, col) =>
            if String.eqb (tablename tgt) (tablename dst)
            then [(fst nc, col)] else []
        | None => []
        end) (foreign_keys (snd nc))) (columns src) in
  hd_error hits.

(** The foreign key on the object's own table makes the attribute a
    many-to-one scalar; the foreign key on the other table makes it a
    one-to-many collection.  Either way the related rows are those whose
    key equals the object's, and an absent key relates to nothing. *)
Definition load (reg : list class_decl) (db : DB) (cls : class_decl)
                (name : string) (r : Row) : option loaded :=
  match get_relationship cls name with
  | None => None
  | Some rel =>
      match find_class reg (argument rel) with
      | None => None
      | Some tgt =>
          match fk_between reg cls tgt with
          | Some (fkcol, refcol) =>
              let v := field cls r fkcol in
              Some (Scalar
                      (if nonnull v
                       then find (fun r' => Value_eqb (field tgt r' refcol) v)
                                 (rows db tgt)
                       else None))
          | None =>
              match fk_between reg tgt cls with
              | Some (fkcol, refcol) =>
                  let v := field cls r refcol in
                  Some (Collection
                          (filter (fun r' => nonnull v
                                             && Value_eqb (field tgt r' fkcol) v)
                                  (rows db tgt)))
              | None => None
              end
          end
      end
  end.

(** [chat.owner] *)
Definition Chat_owner (db : DB) (c : Row) : option Row :=
  match load registry db Chat "owner" c with
  | Some (Scalar o) => o
  | _ => None
  end.

(** [user.chats] *)
Definition User_chats (db : DB) (u : Row) : list Row :=
  match load registry db User "chats" u with
  | Some (Collection l) => l
  | _ => []
  end.

(** ** Creating objects *)

(** Calling the class with keyword arguments: the column attributes left
    out are [None]; a keyword that names no column attribute is refused. *)
Definition construct (cls : class_decl) (kw : list (string * Value)) : option Row :=
  if forallb (fun kv => existsb (String.eqb (fst kv)) (column_names cls)) kw
  then Some (map (fun n => kw_default kw n Null) (column_names cls))
  else None.

Definition max_int (vs : list Value) : Z :=
  fold_right (fun v m => match v with IntV n => Z.max n m | _ => m end) 0%Z vs.

(** An integer primary key without a foreign key is generated when absent. *)
Definition autoincrements (c : column) : bool :=
  primary_key c && TypeEngine_eqb (type_ c) Integer
  && match foreign_keys c with [] => true | _ => false end.

Definition fill_defaults (cls : class_decl) (existing : list Row) (r : Row) : Row :=
  map (fun ncv =>
         let n := fst (fst ncv) in
         let c := snd (fst ncv) in
         match snd ncv with
         | Null =>
             if autoincrements c
             then IntV (1 + max_int (map (fun r' => field cls r' n) existing))
             else Null
         | v => v
         end)
      (combine (columns cls) r).

(** Adding one object and committing: the row is stored when every declared
    constraint holds afterwards, and the state is unchanged otherwise. *)
Definition insert (db : DB) (cls : class_decl) (kw : list (string * Value))
  : option DB :=
  match construct cls kw with
  | None => None
  | Some r =>
      let r' := fill_defaults cls (rows db cls) r in
      let db' := db_set db (tablename cls) (rows db cls ++ [r']) in
      if valid_db db' then Some db' else None
  end.

(** Ownership as the foreign key states it. *)
Definition owns (u c : Row) : Prop :=
  nonnull (field Chat c "owner_id") = true
  /\ field Chat c "owner_id" = field User u "id".

(** The rows of the two tables of [models.py]. *)
Definition tables (db : DB) : list Row * list Row := (db "users", db "chats").

(** ** Example states *)

Definition alice : Row := [IntV 1; StrV "alice"; StrV "a@x.com"; StrV "h1"].
Definition hello : Row := [IntV 1; IntV 1; StrV "hello"].

(** The state of the example scenario: one user and one chat of theirs. *)
Definition alice_db : DB :=
  db_set (db_set empty_db "users" [alice]) "chats" [hello].

(** A chat stored without an owner, next to a user. *)
Definition unowned : Row := [IntV 1; Null; StrV "hello"].

Definition orphan_db : DB :=
  db_set (db_set empty_db "users" [alice]) "chats" [unowned].

(** Two users created with no attribute given. *)
Definition anon1 : Row := [IntV 1; Null; Null; Null].
Definition anon2 : Row := [IntV 2; Null; Null; Null].

(** Two named users without an email. *)
Definition bob1 : Row := [IntV 1; StrV "bob"; Null; StrV "h1"].
Definition bob2 : Row := [IntV 2; StrV "rob"; Null; StrV "h2"].

Definition bob_db : DB := db_set empty_db "users" [bob1; bob2].

(** A user who owns [n] chats, all with the message [s]. *)
Definition chat_of (s : string) (i : nat) : Row :=
  [IntV (Z.of_nat (S i)); IntV 1; StrV s].

Definition busy_db (n : nat) (s : string) : DB :=
  db_set (db_set empty_db "users" [alice]) "chats" (map (chat_of s) (seq 0 n)).

(** [n] users without a name or an email, all with the credential [h]. *)
Definition anon_of (h : string) (i : nat) : Row :=
  [IntV (Z.of_nat (S i)); Null; Null; StrV h].

Definition crowd_db (n : nat) (h : string) : DB :=
  db_set empty_db "users" (map (anon_of h) (seq 0 n)).

(** ** Boolean checks and what they mean *)

Lemma Value_eqb_eq (a b : Value) : Value_eqb a b = true <-> a = b.
Proof.
  destruct a as [|n|s], b as [|m|t]; simpl; split; intro H;
    try discriminate; try reflexivity.
  - apply Z.eqb_eq in H. now subst.
  - injection H as ->. apply Z.eqb_refl.
  - apply String.eqb_eq in H. now subst.
  - injection H as ->. apply String.eqb_refl.
Qed.

Lemma Value_eqb_refl (a : Value) : Value_eqb a a = true.
Proof. now apply Value_eqb_eq. Qed.

Section Distinct.

Context {A : Type} (eqb : A -> A -> bool).
Hypothesis eqb_eq : forall a b, eqb a b = true <-> a = b.

Lemma list_eqb_eq (l1 l2 : list A) : list_eqb eqb l1 l2 = true <-> l1 = l2.
Proof.
  revert l2. induction l1 as [|a l1 IH]; intros [|b l2]; simpl;
    try (split; [discriminate | discriminate]); try tauto.
  rewrite andb_true_iff, eqb_eq, IH. split.
  - intros [-> ->]. reflexivity.
  - intros H. injection H as -> ->. auto.
Qed.

Lemma existsb_eqb_In (a : A) (l : list A) : In a l -> existsb (eqb a) l = true.
Proof.
  intro H. apply existsb_exists. exists a. split; [exact H | now apply eqb_eq].
Qed.

(** Rows that agree on a key whose selected values are pairwise different
    are one row. *)
Lemma nodupb_filter_map_inj {R : Type} (f : R -> A) (p : A -> bool) (l : list R) :
  nodupb eqb (filter p (map f l)) = true ->
  forall a b, In a l -> In b l -> p (f a) = true -> f a = f b -> a = b.
Proof.
  induction l as [|x l IH]; simpl; intros Hnd a b Ha Hb Hp Hab.
  - contradiction.
  - assert (Htail : nodupb eqb (filter p (map f l)) = true).
    { destruct (p (f x)); [simpl in Hnd; apply andb_true_iff in Hnd; tauto | exact Hnd]. }
    assert (Hhead : forall y, In y l -> p (f x) = true -> f y = f x -> False).
    { intros y Hy Hpx Hyx. rewrite Hpx in Hnd. simpl in Hnd.
      apply andb_true_iff in Hnd. destruct Hnd as [Hnot _].
      apply negb_true_iff in Hnot.
      rewrite existsb_eqb_In in Hnot; [discriminate |].
      apply filter_In. split; [| exact Hpx].
      rewrite <- Hyx. now apply in_map. }
    destruct Ha as [-> | Ha], Hb as [-> | Hb].
    + reflexivity.
    + exfalso. apply (Hhead b Hb Hp). now symmetry.
    + exfalso. apply (Hhead a Ha); [now rewrite <- Hab | exact Hab].
    + now apply IH.
Qed.

Lemma nodupb_map_inj {R : Type} (f : R -> A) (l : list R) :
  nodupb eqb (map f l) = true ->
  forall a b, In a l -> In b l -> f a = f b -> a = b.
Proof.
  intros Hnd a b Ha Hb Hab.
  apply (nodupb_filter_map_inj f (fun _ => true) l); auto.
  replace (filter (fun _ => true) (map f l)) with (map f l); [exact Hnd |].
  clear. induction (map f l) as [|y m IH]; simpl; [reflexivity | now rewrite <- IH].
Qed.

End Distinct.

(** ** What a valid state guarantees, table by table *)

Lemma valid_table (db : DB) (cls : class_decl) :
  valid_db db = true -> In cls registry -> table_ok registry db cls = true.
Proof.
  unfold valid_db, valid_in. intros H Hin.
  now apply (proj1 (forallb_forall _ _) H).
Qed.

Lemma In_User : In User registry.
Proof. simpl; auto. Qed.

Lemma In_Chat : In Chat registry.
Proof. simpl; auto. Qed.

Lemma valid_row_ok (db : DB) (cls : class_decl) (r : Row) :
  valid_db db = true -> In cls registry -> In r (rows db cls) ->
  row_ok registry db cls r = true.
Proof.
  intros H Hcls Hr. pose proof (valid_table db cls H Hcls) as Ht.
  unfold table_ok in Ht. rewrite !andb_true_iff in Ht.
  destruct Ht as [[Hrows _] _].
  now apply (proj1 (forallb_forall _ _) Hrows).
Qed.

Lemma valid_unique (db : DB) (cls : class_decl) (n : string) (c : column) :
  valid_db db = true -> In cls registry -> In (n, c) (columns cls) ->
  unique c = true ->
  forall r1 r2, In r1 (rows db cls) -> In r2 (rows db cls) ->
    nonnull (field cls r1 n) = true -> field cls r1 n = field cls r2 n ->
    r1 = r2.
Proof.
  intros H Hcls Hc Hu r1 r2 H1 H2 Hnn Heq.
  pose proof (valid_table db cls H Hcls) as Ht.
  unfold table_ok in Ht. rewrite !andb_true_iff in Ht.
  destruct Ht as [[_ Huniq] _]. unfold unique_ok in Huniq.
  pose proof (proj1 (forallb_forall _ _) Huniq (n, c) Hc) as Hn.
  simpl in Hn. rewrite Hu in Hn.
  exact (nodupb_filter_map_inj Value_eqb Value_eqb_eq
           (fun r => field cls r n) nonnull _ Hn r1 r2 H1 H2 Hnn Heq).
Qed.

Lemma valid_pk (db : DB) (cls : class_decl) :
  valid_db db = true -> In cls registry ->
  forall r1 r2, In r1 (rows db cls) -> In r2 (rows db cls) ->
    pk_tuple cls r1 = pk_tuple cls r2 -> r1 = r2.
Proof.
  intros H Hcls r1 r2 H1 H2 Heq.
  pose proof (valid_table db cls H Hcls) as Ht.
  unfold table_ok in Ht. rewrite !andb_true_iff in Ht.
  destruct Ht as [_ Hpk]. unfold pk_ok in Hpk.
  exact (nodupb_map_inj (list_eqb Value_eqb) (list_eqb_eq Value_eqb Value_eqb_eq)
           (pk_tuple cls) _ Hpk r1 r2 H1 H2 Heq).
Qed.

(** The shape of the two loaders on the schema of [models.py]. *)
Lemma Chat_owner_eq (db : DB) (c : Row) :
  Chat_owner db c =
  if nonnull (field Chat c "owner_id")
  then find (fun u => Value_eqb (field User u "id") (field Chat c "owner_id"))
            (db "users")
  else None.
Proof. reflexivity. Qed.

Lemma User_chats_eq (db : DB) (u : Row) :
  User_chats db u =
  filter (fun c => nonnull (field User u "id")
                   && Value_eqb (field Chat c "owner_id") (field User u "id"))
         (db "chats").
Proof. reflexivity. Qed.

Lemma user_id_inj (db : DB) (u1 u2 : Row) :
  valid_db db = true -> In u1 (db "users") -> In u2 (db "users") ->
  field User u1 "id" = field User u2 "id" -> u1 = u2.
Proof.
  intros H H1 H2 Heq.
  apply (valid_pk db User H In_User u1 u2 H1 H2).
  change (pk_tuple User u1) with [field User u1 "id"].
  change (pk_tuple User u2) with [field User u2 "id"].
  now rewrite Heq.
Qed.

Lemma user_id_present (db : DB) (u : Row) :
  valid_db db = true -> In u (db "users") -> nonnull (field User u "id") = true.
Proof.
  intros H Hu. pose proof (valid_row_ok db User u H In_User Hu) as Hr.
  unfold row_ok in Hr. apply andb_true_iff in Hr. destruct Hr as [Hlen Hcells].
  apply Nat.eqb_eq in Hlen.
  destruct u as [|i u]; [discriminate Hlen |].
  change (columns User) with
    (("id", Column Integer [] [("primary_key", true); ("index", true)])
       :: tl (columns User)) in Hcells.
  simpl combine in Hcells. simpl forallb in Hcells.
  apply andb_true_iff in Hcells. destruct Hcells as [Hid _].
  unfold cell_ok in Hid. rewrite !andb_true_iff in Hid.
  destruct Hid as [[_ Hnn] _]. exact Hnn.
Qed.

Lemma chat_owner_id_references (db : DB) (c : Row) :
  valid_db db = true -> In c (db "chats") ->
  nonnull (field Chat c "owner_id") = true ->
  exists u, In u (db "users") /\ field User u "id" = field Chat c "owner_id".
Proof.
  intros H Hc Hnn. pose proof (valid_row_ok db Chat c H In_Chat Hc) as Hr.
  unfold row_ok in Hr. apply andb_true_iff in Hr. destruct Hr as [Hlen Hcells].
  apply Nat.eqb_eq in Hlen.
  destruct c as [|i [|o c]]; try discriminate Hlen.
  change (field Chat (i :: o :: c) "owner_id") with o in *.
  change (columns Chat) with
    (("id", Column Integer [] [("primary_key", true); ("index", true)])
       :: ("owner_id", Column Integer [ForeignKey "users.id" []] [])
       :: tl (tl (columns Chat))) in Hcells.
  simpl combine in Hcells. simpl forallb in Hcells.
  rewrite !andb_true_iff in Hcells. destruct Hcells as (_ & Howner & _).
  unfold cell_ok in Howner. rewrite !andb_true_iff in Howner.
  destruct Howner as [_ Hfk]. simpl forallb in Hfk.
  apply andb_true_iff in Hfk. destruct Hfk as [Href _].
  unfold references in Href.
  change (resolve registry (ForeignKey "users.id" [])) with (Some (User, "id")) in Href.
  change (rows db User) with (db "users") in Href.
  destruct o as [|n|s]; [discriminate Hnn | |];
    apply existsb_exists in Href; destruct Href as (u & Hu & He);
    apply Value_eqb_eq in He; exists u; auto.
Qed.

Lemma insert_valid (db db' : DB) (cls : class_decl) (kw : list (string * Value)) :
  insert db cls kw = Some db' -> valid_db db' = true.
Proof.
  unfold insert. destruct (construct cls kw) as [r|]; [| discriminate].
  match goal with |- context [valid_db ?d] => destruct (valid_db d) eqn:E end;
    [| discriminate].
  intro Hs. injection Hs as <-. exact E.
Qed.

(** ** The example states are reached by creating objects *)

Lemma scenario_creates_alice_db :
  exists db1 db2,
    insert empty_db User [("username", StrV "alice"); ("email", StrV "a@x.com");
                          ("hashed_password", StrV "h1")] = Some db1
    /\ insert db1 Chat [("owner_id", IntV 1); ("message", StrV "hello")] = Some db2
    /\ tables db2 = tables alice_db.
Proof. do 2 eexists. repeat split; reflexivity. Qed.

Lemma dangling_owner_id_refused :
  insert alice_db Chat [("owner_id", IntV 2); ("message", StrV "hello")] = None.
Proof. reflexivity. Qed.

Lemma duplicate_username_refused :
  insert alice_db User [("username", StrV "alice"); ("email", StrV "b@x.com")] = None.
Proof. reflexivity. Qed.

Lemma duplicate_email_refused :
  insert alice_db User [("username", StrV "bob"); ("email", StrV "a@x.com")] = None.
Proof. reflexivity. Qed.

(** ** The schema as declared *)

(** C5: [User] maps to the table [users] and declares exactly the four column
    attributes [id] (integer, primary key, hence unique, indexed), [username]
    and [email] (strings, unique, indexed) and [hashed_password] (string,
    neither unique nor indexed), plus the one relationship [chats], which
    names [Chat], is back-populated by [owner] and loads as a collection. *)
Theorem User_declaration :
  map fst (cls_body User)
    = ["__tablename__"; "id"; "username"; "email"; "hashed_password"; "chats"]
  /\ tablename User = "users"
  /\ map (fun nc => (fst nc, type_ (snd nc), primary_key (snd nc),
                     enforces_unique (snd nc), index (snd nc)))
         (columns User)
     = [ ("id", Integer, true, true, true);
         ("username", String None, false, true, true);
         ("email", String None, false, true, true);
         ("hashed_password", String None, false, false, false) ]
  /\ map (fun nr => (fst nr, argument (snd nr), back_populates (snd nr)))
         (relationships User)
     = [ ("chats", "Chat", Some "owner") ]
  /\ forall db u, load registry db User "chats" u = Some (Collection (User_chats db u)).
Proof. repeat split; reflexivity. Qed.

(** C6: [Chat] maps to the table [chats] and declares exactly the three
    column attributes [id] (integer, primary key, hence unique, indexed),
    [owner_id] (integer, one foreign key, which resolves to the column [id]
    of [User]) and [message] (text), plus the one relationship [owner], which
    names [User], is back-populated by [chats] and loads as a scalar. *)
Theorem Chat_declaration :
  map fst (cls_body Chat) = ["__tablename__"; "id"; "owner_id"; "message"; "owner"]
  /\ tablename Chat = "chats"
  /\ map (fun nc => (fst nc, type_ (snd nc), primary_key (snd nc),
                     enforces_unique (snd nc), index (snd nc),
                     map (fun fk => option_map (fun p => (cls_name (fst p), snd p))
                                               (resolve registry fk))
                         (foreign_keys (snd nc))))
         (columns Chat)
     = [ ("id", Integer, true, true, true, []);
         ("owner_id", Integer, false, false, false, [Some ("User", "id")]);
         ("message", Text None, false, false, false, []) ]
  /\ map (fun nr => (fst nr, argument (snd nr), back_populates (snd nr)))
         (relationships Chat)
     = [ ("owner", "User", Some "chats") ]
  /\ forall db c, load registry db Chat "owner" c = Some (Scalar (Chat_owner db c)).
Proof. repeat split; reflexivity. Qed.

(** C7: the [message] column is a [Text] with no length, so it accepts every
    string: whatever [s] is, creating a [Chat] with [message = s] in the
    empty database succeeds and stores [s] unchanged, in a valid state. *)
Theorem message_accepts_any_string :
  option_map (fun c => type_length (type_ c)) (get_column Chat "message") = Some None
  /\ forall s : string,
       type_accepts (Text None) (StrV s) = true
       /\ exists db,
            insert empty_db Chat [("message", StrV s)] = Some db
            /\ valid_db db = true
            /\ db "chats" = [[IntV 1; Null; StrV s]]
            /\ map (fun c => field Chat c "message") (db "chats") = [StrV s].
Proof.
  split; [reflexivity |]. intro s. split; [reflexivity |].
  eexists. split; [reflexivity |]. repeat split; reflexivity.
Qed.

(** C8: the foreign key of [owner_id] declares no ON DELETE action at all (so
    neither CASCADE nor RESTRICT), and neither side of the relationship
    declares a cascade of its own, so that the default one, which holds no
    delete, applies: what happens to a chat when its user is deleted is not
    fixed by the declarations. *)
Theorem no_on_delete_policy :
  option_map (fun c => map on_delete (foreign_keys c)) (get_column Chat "owner_id")
    = Some [None]
  /\ option_map (fun c => map ondelete (foreign_keys c)) (get_column Chat "owner_id")
    = Some [None]
  /\ option_map (fun r => (cascade r, cascades_delete r))
                (get_relationship User "chats")
     = Some (["save-update"; "merge"], false)
  /\ option_map (fun r => (cascade r, cascades_delete r))
                (get_relationship Chat "owner")
     = Some (["save-update"; "merge"], false).
Proof. repeat split; reflexivity. Qed.

(** ** Null values *)

(** C9: [owner_id] is declared nullable, and a chat without an owner is
    accepted: creating a [Chat] with only a message succeeds, the state is
    valid, the chat's [owner_id] is absent, its [owner] loads as [None] and
    no row owns it. *)
Theorem owner_id_may_be_absent :
  option_map nullable (get_column Chat "owner_id") = Some true
  /\ exists db c,
       insert (db_set empty_db "users" [alice]) Chat [("message", StrV "hello")]
         = Some db
       /\ valid_db db = true
       /\ In c (db "chats")
       /\ field Chat c "owner_id" = Null
       /\ Chat_owner db c = None
       /\ forall u, ~ owns u c.
Proof.
  split; [reflexivity |].
  eexists. exists unowned. split; [reflexivity |].
  split; [reflexivity |]. split; [left; reflexivity |].
  split; [reflexivity |]. split; [reflexivity |].
  intros u [Hnn _]. discriminate Hnn.
Qed.

(** C10: [username], [email] and [hashed_password] are declared nullable, and
    the UNIQUE constraints let several users lack them: creating two users
    with no attribute given succeeds twice, and the valid state reached holds
    two different users whose three attributes are all absent. *)
Theorem user_attributes_may_be_absent :
  map (fun n => option_map nullable (get_column User n))
      ["username"; "email"; "hashed_password"]
    = [Some true; Some true; Some true]
  /\ exists db1 db2 u1 u2,
       insert empty_db User [] = Some db1
       /\ insert db1 User [] = Some db2
       /\ valid_db db2 = true
       /\ db2 "users" = [u1; u2]
       /\ u1 <> u2
       /\ map (field User u1) ["username"; "email"; "hashed_password"]
          = [Null; Null; Null]
       /\ map (field User u2) ["username"; "email"; "hashed_password"]
          = [Null; Null; Null].
Proof.
  split; [reflexivity |].
  eexists. eexists. exists anon1, anon2.
  split; [reflexivity |]. split; [reflexivity |].
  repeat split; try reflexivity. discriminate.
Qed.

(** ** Referential integrity and ownership *)

(** C1, as stated, fails: [orphan_db] is valid, and its chat has an absent
    [owner_id], which is the [id] of no user. *)
Lemma owner_id_reference_counterexample :
  ~ (forall db c, valid_db db = true -> In c (db "chats") ->
       exists u, In u (db "users") /\ field User u "id" = field Chat c "owner_id").
Proof.
  intro H. destruct (H orphan_db unowned) as (u & Hu & Hid).
  - reflexivity.
  - left; reflexivity.
  - destruct Hu as [<- | []]. discriminate Hid.
Qed.

(** C1 (amended): in a valid state, every chat whose [owner_id] is present
    has the [id] of an existing user in it. *)
Theorem owner_id_references_user (db : DB) (c : Row) :
  valid_db db = true -> In c (db "chats") ->
  nonnull (field Chat c "owner_id") = true ->
  exists u, In u (db "users") /\ field User u "id" = field Chat c "owner_id".
Proof. apply chat_owner_id_references. Qed.

Lemma owner_id_references_user_witness :
  exists u, In u (alice_db "users") /\ field User u "id" = field Chat hello "owner_id".
Proof.
  apply (owner_id_references_user alice_db hello).
  - reflexivity.
  - left; reflexivity.
  - reflexivity.
Defined.

(** C2, as stated, fails: [bob_db] is valid and holds two different users
    whose [email] is the same, namely absent. *)
Lemma unique_username_email_counterexample :
  ~ (forall db u1 u2, valid_db db = true ->
       In u1 (db "users") -> In u2 (db "users") -> u1 <> u2 ->
       field User u1 "username" <> field User u2 "username"
       /\ field User u1 "email" <> field User u2 "email").
Proof.
  intro H. destruct (H bob_db bob1 bob2) as [_ Hemail].
  - reflexivity.
  - left; reflexivity.
  - right; left; reflexivity.
  - discriminate.
  - apply Hemail. reflexivity.
Qed.

(** C2 (amended): in a valid state, two different users never share a
    present [username], and never share a present [email]. *)
Theorem unique_username_email (db : DB) (u1 u2 : Row) :
  valid_db db = true -> In u1 (db "users") -> In u2 (db "users") -> u1 <> u2 ->
  (nonnull (field User u1 "username") = true ->
   field User u1 "username" <> field User u2 "username")
  /\ (nonnull (field User u1 "email") = true ->
      field User u1 "email" <> field User u2 "email").
Proof.
  intros H H1 H2 Hne. split; intros Hnn Heq; apply Hne.
  - apply (valid_unique db User "username"
             (Column (String None) [] [("unique", true); ("index", true)])
             H In_User); auto.
    simpl; auto.
  - apply (valid_unique db User "email"
             (Column (String None) [] [("unique", true); ("index", true)])
             H In_User); auto.
    simpl; auto.
Qed.

Lemma unique_username_email_witness :
  field User bob1 "username" <> field User bob2 "username".
Proof.
  apply (proj1 (unique_username_email bob_db bob1 bob2
                  eq_refl (or_introl eq_refl) (or_intror (or_introl eq_refl))
                  ltac:(discriminate))).
  reflexivity.
Defined.

(** C3, as stated, fails: [orphan_db] is valid and holds a user, yet its
    chat is owned by no user. *)
Lemma exactly_one_owner_counterexample :
  ~ (forall db c, valid_db db = true -> In c (db "chats") ->
       exists! u, In u (db "users") /\ owns u c).
Proof.
  intro H. destruct (H orphan_db unowned) as (u & [_ [Hnn _]] & _).
  - reflexivity.
  - left; reflexivity.
  - discriminate Hnn.
Qed.

(** C3 (amended): in a valid state a chat is owned by at most one user, and
    by exactly one when its [owner_id] is present; that user is the one
    [owner] loads. *)
Theorem at_most_one_owner (db : DB) (c : Row) :
  valid_db db = true -> In c (db "chats") ->
  (forall u1 u2, In u1 (db "users") -> In u2 (db "users") ->
                 owns u1 c -> owns u2 c -> u1 = u2)
  /\ (nonnull (field Chat c "owner_id") = true ->
      exists! u, In u (db "users") /\ owns u c).
Proof.
  intros H Hc.
  assert (Huniq : forall u1 u2, In u1 (db "users") -> In u2 (db "users") ->
                                owns u1 c -> owns u2 c -> u1 = u2).
  { intros u1 u2 H1 H2 [_ E1] [_ E2].
    apply (user_id_inj db u1 u2 H H1 H2). congruence. }
  split; [exact Huniq |].
  intro Hnn. destruct (chat_owner_id_references db c H Hc Hnn) as (u & Hu & Hid).
  exists u. split.
  - split; [exact Hu |]. split; [exact Hnn | now symmetry].
  - intros u' [Hu' Ho']. apply Huniq; auto. split; [exact Hnn | now symmetry].
Qed.

Lemma at_most_one_owner_witness :
  exists! u, In u (alice_db "users") /\ owns u hello.
Proof.
  apply (proj2 (at_most_one_owner alice_db hello eq_refl (or_introl eq_refl))).
  reflexivity.
Defined.

(** C4: the two sides of the relationship agree.  In a valid state, for a
    stored user [u] and a stored chat [c]: if [c.owner_id] is [u.id] then
    [c.owner] is [u] and [c] is among [u.chats]; and in general [c.owner] is
    [u] exactly when [c] is among [u.chats]. *)
Theorem back_reference_round_trip (db : DB) (u c : Row) :
  valid_db db = true -> In u (db "users") -> In c (db "chats") ->
  (owns u c -> Chat_owner db c = Some u /\ In c (User_chats db u))
  /\ (Chat_owner db c = Some u <-> In c (User_chats db u)).
Proof.
  intros H Hu Hc.
  assert (Hin : owns u c -> In c (User_chats db u)).
  { intros [Hnn Heq]. rewrite User_chats_eq. apply filter_In.
    split; [exact Hc |]. rewrite <- Heq, Hnn. simpl. apply Value_eqb_refl. }
  assert (Hown : In c (User_chats db u) -> owns u c).
  { rewrite User_chats_eq. intro Hf. apply filter_In in Hf.
    destruct Hf as [_ Hf]. apply andb_true_iff in Hf. destruct Hf as [Hnn Heq].
    apply Value_eqb_eq in Heq. split; [now rewrite Heq | exact Heq]. }
  assert (Hload : owns u c -> Chat_owner db c = Some u).
  { intros [Hnn Heq]. rewrite Chat_owner_eq, Hnn.
    destruct (find _ (db "users")) as [u'|] eqn:Hfind.
    - apply find_some in Hfind. destruct Hfind as [Hu' He].
      apply Value_eqb_eq in He. f_equal.
      apply (user_id_inj db u' u H Hu' Hu). congruence.
    - exfalso. pose proof (find_none _ _ Hfind u Hu) as Hno. simpl in Hno.
      rewrite Heq, Value_eqb_refl in Hno. discriminate Hno. }
  assert (Hback : Chat_owner db c = Some u -> owns u c).
  { rewrite Chat_owner_eq.
    destruct (nonnull (field Chat c "owner_id")) eqn:Hnn; [| discriminate].
    intro Hfind. apply find_some in Hfind. destruct Hfind as [_ He].
    apply Value_eqb_eq in He. split; [exact Hnn | now symmetry]. }
  split; [| split]; auto.
Qed.

Lemma back_reference_round_trip_witness :
  Chat_owner alice_db hello = Some alice /\ In hello (User_chats alice_db alice).
Proof.
  apply (proj1 (back_reference_round_trip alice_db alice hello
                  eq_refl (or_introl eq_refl) (or_introl eq_refl))).
  split; reflexivity.
Defined.

(** The example scenario, read back. *)
Lemma scenario_reads_back :
  option_map (fun u => field User u "username") (Chat_owner alice_db hello)
    = Some (StrV "alice")
  /\ User_chats alice_db alice = [hello].
Proof. split; reflexivity. Qed.

(** ** Further consequences of the declarations *)

Section MoreDistinct.

Context {A : Type} (eqb : A -> A -> bool).
Hypothesis eqb_eq : forall a b, eqb a b = true <-> a = b.

Lemma NoDup_nodupb (l : list A) : NoDup l -> nodupb eqb l = true.
Proof.
  induction 1 as [|a l Hnot _ IH]; simpl; [reflexivity |].
  rewrite IH, andb_true_r. apply negb_true_iff.
  destruct (existsb (eqb a) l) eqn:E; [| reflexivity].
  apply existsb_exists in E. destruct E as (x & Hx & He).
  apply eqb_eq in He. subst x. contradiction.
Qed.

(** A value stored twice is caught, wherever the second copy sits. *)
Lemma nodupb_app_dup (l : list A) (x : A) :
  In x l -> nodupb eqb (l ++ [x]) = false.
Proof.
  induction l as [|a l IH]; simpl; [contradiction |].
  intros [-> | Hin].
  - rewrite (existsb_eqb_In eqb eqb_eq x (l ++ [x])); [reflexivity |].
    apply in_or_app. right. left. reflexivity.
  - rewrite (IH Hin). apply andb_false_r.
Qed.

End MoreDistinct.

Lemma filter_all {A : Type} (p : A -> bool) (l : list A) :
  (forall x, In x l -> p x = true) -> filter p l = l.
Proof.
  induction l as [|a l IH]; simpl; intro H; [reflexivity |].
  rewrite (H a (or_introl eq_refl)), IH; auto.
Qed.

Lemma filter_none {A : Type} (p : A -> bool) (l : list A) :
  (forall x, In x l -> p x = false) -> filter p l = [].
Proof.
  induction l as [|a l IH]; simpl; intro H; [reflexivity |].
  rewrite (H a (or_introl eq_refl)), IH; auto.
Qed.

Lemma numbered_keys_NoDup (n : nat) :
  NoDup (map (fun i => [IntV (Z.of_nat (S i))]) (seq 0 n)).
Proof.
  apply Injective_map_NoDup; [| apply seq_NoDup].
  intros i j H. injection H as H. lia.
Qed.

Lemma pk_ok_numbered (cls : class_decl) (mk : nat -> Row) (n : nat) :
  (forall i, pk_tuple cls (mk i) = [IntV (Z.of_nat (S i))]) ->
  pk_ok cls (map mk (seq 0 n)) = true.
Proof.
  intro Hkey. unfold pk_ok. rewrite map_map.
  rewrite (map_ext _ _ Hkey).
  apply (NoDup_nodupb _ (list_eqb_eq Value_eqb Value_eqb_eq)), numbered_keys_NoDup.
Qed.

Lemma chat_id_inj (db : DB) (c1 c2 : Row) :
  valid_db db = true -> In c1 (db "chats") -> In c2 (db "chats") ->
  field Chat c1 "id" = field Chat c2 "id" -> c1 = c2.
Proof.
  intros H H1 H2 Heq.
  apply (valid_pk db Chat H In_Chat c1 c2 H1 H2).
  change (pk_tuple Chat c1) with [field Chat c1 "id"].
  change (pk_tuple Chat c2) with [field Chat c2 "id"].
  now rewrite Heq.
Qed.

Lemma user_row_cells (db : DB) (u : Row) :
  valid_db db = true -> In u (db "users") ->
  exists i a b h,
    u = [i; a; b; h]
    /\ cell_ok registry db (Column Integer [] [("primary_key", true); ("index", true)]) i = true
    /\ type_accepts (String None) a = true
    /\ type_accepts (String None) b = true
    /\ type_accepts (String None) h = true.
Proof.
  intros H Hu. pose proof (valid_row_ok db User u H In_User Hu) as Hr.
  unfold row_ok in Hr. apply andb_true_iff in Hr. destruct Hr as [Hlen Hcells].
  apply Nat.eqb_eq in Hlen.
  destruct u as [|i [|a [|b [|h [|x u]]]]]; try discriminate Hlen.
  change (columns User) with
    [ ("id", Column Integer [] [("primary_key", true); ("index", true)]);
      ("username", Column (String None) [] [("unique", true); ("index", true)]);
      ("email", Column (String None) [] [("unique", true); ("index", true)]);
      ("hashed_password", Column (String None) [] []) ] in Hcells.
  simpl combine in Hcells. simpl forallb in Hcells.
  rewrite !andb_true_iff in Hcells.
  destruct Hcells as (Hi & Ha & Hb & Hh & _).
  exists i, a, b, h. split; [reflexivity |]. split; [exact Hi |].
  unfold cell_ok in Ha, Hb, Hh. rewrite !andb_true_iff in Ha, Hb, Hh.
  repeat split; tauto.
Qed.

Lemma chat_row_cells (db : DB) (c : Row) :
  valid_db db = true -> In c (db "chats") ->
  exists i o m,
    c = [i; o; m]
    /\ cell_ok registry db (Column Integer [] [("primary_key", true); ("index", true)]) i = true
    /\ type_accepts Integer o = true
    /\ type_accepts (Text None) m = true.
Proof.
  intros H Hc. pose proof (valid_row_ok db Chat c H In_Chat Hc) as Hr.
  unfold row_ok in Hr. apply andb_true_iff in Hr. destruct Hr as [Hlen Hcells].
  apply Nat.eqb_eq in Hlen.
  destruct c as [|i [|o [|m [|x c]]]]; try discriminate Hlen.
  change (columns Chat) with
    [ ("id", Column Integer [] [("primary_key", true); ("index", true)]);
      ("owner_id", Column Integer [ForeignKey "users.id" []] []);
      ("message", Column (Text None) [] []) ] in Hcells.
  simpl combine in Hcells. simpl forallb in Hcells.
  rewrite !andb_true_iff in Hcells.
  destruct Hcells as (Hi & Ho & Hm & _).
  exists i, o, m. split; [reflexivity |]. split; [exact Hi |].
  unfold cell_ok in Ho, Hm. rewrite !andb_true_iff in Ho, Hm.
  repeat split; tauto.
Qed.

Lemma pk_cell_is_int (db : DB) (i : Value) :
  cell_ok registry db (Column Integer [] [("primary_key", true); ("index", true)]) i = true ->
  exists n, i = IntV n.
Proof.
  destruct i as [|n|s]; intro H; try discriminate H. now exists n.
Qed.




Lemma new_user_fields (existing : list Row) (kw : list (string * Value)) (r : Row) :
  construct User kw = Some r ->
  field User (fill_defaults User existing r) "username" = kw_default kw "username" Null
  /\ field User (fill_defaults User existing r) "email" = kw_default kw "email" Null.
Proof.
  unfold construct. destruct (forallb _ kw); [| discriminate].
  intro Hs. injection Hs as <-.
  split.
  - change (field User _ "username")
      with (match kw_default kw "username" Null with Null => Null | v => v end).
    now destruct (kw_default kw "username" Null).
  - change (field User _ "email")
      with (match kw_default kw "email" Null with Null => Null | v => v end).
    now destruct (kw_default kw "email" Null).
Qed.


(** A state that stores a present value twice in a unique column of [User]
    is not valid. *)
Lemma repeated_unique_value_invalid (db : DB) (n : string) (c : column)
                                    (rs : list Row) (u r : Row) :
  In (n, c) (columns User) -> unique c = true ->
  In u rs -> nonnull (field User u n) = true -> field User r n = field User u n ->
  valid_db (db_set db "users" (rs ++ [r])) = false.
Proof.
  intros Hc Hu Hin Hnn Heq.
  destruct (valid_db (db_set db "users" (rs ++ [r]))) eqn:E; [| reflexivity].
  pose proof (valid_table _ User E In_User) as Ht.
  unfold table_ok in Ht. rewrite !andb_true_iff in Ht.
  destruct Ht as [[_ Huniq] _]. unfold unique_ok in Huniq.
  pose proof (proj1 (forallb_forall _ _) Huniq (n, c) Hc) as Hn.
  simpl in Hn. rewrite Hu in Hn.
  change (rows (db_set db "users" (rs ++ [r])) User) with (rs ++ [r])%list in Hn.
  rewrite map_app, filter_app in Hn. simpl in Hn.
  rewrite Heq, Hnn in Hn.
  rewrite (nodupb_app_dup Value_eqb Value_eqb_eq) in Hn; [discriminate Hn |].
  apply filter_In. split; [| exact Hnn].
  apply in_map_iff. exists u. auto.
Qed.

Lemma map_const_seq {A : Type} (a : A) (k n : nat) :
  map (fun _ => a) (seq k n) = repeat a n.
Proof.
  revert k. induction n as [|n IH]; intro k; simpl; [reflexivity | now rewrite IH].
Qed.

Lemma valid_db_tables (db : DB) :
  table_ok registry db User = true -> table_ok registry db Chat = true ->
  valid_db db = true.
Proof.
  intros HU HC. unfold valid_db, valid_in.
  change (forallb (table_ok registry db) registry)
    with (table_ok registry db User && (table_ok registry db Chat && true)).
  now rewrite HU, HC.
Qed.

(** ** Primary keys and column types *)

(** X1: [User.id] is a primary key: in a valid state every stored user has
    an integer [id], and two stored users with the same [id] are one row. *)
Theorem user_primary_key (db : DB) (u1 u2 : Row) :
  valid_db db = true -> In u1 (db "users") -> In u2 (db "users") ->
  (exists n, field User u1 "id" = IntV n)
  /\ (field User u1 "id" = field User u2 "id" -> u1 = u2).
Proof.
  intros H H1 H2. split.
  - destruct (user_row_cells db u1 H H1) as (i & a & b & h & -> & Hi & _).
    destruct (pk_cell_is_int db i Hi) as [n ->]. now exists n.
  - apply (user_id_inj db u1 u2 H H1 H2).
Qed.

Lemma user_primary_key_witness :
  (exists n, field User bob1 "id" = IntV n)
  /\ (field User bob1 "id" = field User bob2 "id" -> bob1 = bob2).
Proof.
  apply (user_primary_key bob_db bob1 bob2).
  - reflexivity.
  - left; reflexivity.
  - right; left; reflexivity.
Defined.

(** X2: [Chat.id] is a primary key: in a valid state every stored chat has
    an integer [id], and two stored chats with the same [id] are one row. *)
Theorem chat_primary_key (db : DB) (c1 c2 : Row) :
  valid_db db = true -> In c1 (db "chats") -> In c2 (db "chats") ->
  (exists n, field Chat c1 "id" = IntV n)
  /\ (field Chat c1 "id" = field Chat c2 "id" -> c1 = c2).
Proof.
  intros H H1 H2. split.
  - destruct (chat_row_cells db c1 H H1) as (i & o & m & -> & Hi & _).
    destruct (pk_cell_is_int db i Hi) as [n ->]. now exists n.
  - apply (chat_id_inj db c1 c2 H H1 H2).
Qed.

Lemma chat_primary_key_witness :
  (exists n, field Chat (chat_of "hi" 0) "id" = IntV n)
  /\ (field Chat (chat_of "hi" 0) "id" = field Chat (chat_of "hi" 1) "id" ->
      chat_of "hi" 0 = chat_of "hi" 1).
Proof.
  apply (chat_primary_key (busy_db 2 "hi")).
  - reflexivity.
  - left; reflexivity.
  - right; left; reflexivity.
Defined.





(** ** More on the two relationship attributes *)

(** X5: in a valid state, a stored chat's [owner] is [None] exactly when its
    [owner_id] is absent; when [owner_id] is present, [owner] is a stored
    user whose [id] is that [owner_id]. *)
Theorem owner_loaded_iff_owner_id_present (db : DB) (c : Row) :
  valid_db db = true -> In c (db "chats") ->
  (Chat_owner db c = None <-> field Chat c "owner_id" = Null)
  /\ (nonnull (field Chat c "owner_id") = true ->
      exists u, Chat_owner db c = Some u /\ In u (db "users")
                /\ field User u "id" = field Chat c "owner_id").
Proof.
  intros H Hc.
  assert (Hpresent : nonnull (field Chat c "owner_id") = true ->
            exists u, Chat_owner db c = Some u /\ In u (db "users")
                      /\ field User u "id" = field Chat c "owner_id").
  { intro Hnn. rewrite Chat_owner_eq, Hnn.
    destruct (find _ (db "users")) as [u|] eqn:Hfind.
    - apply find_some in Hfind. destruct Hfind as [Hu He].
      apply Value_eqb_eq in He. exists u. auto.
    - exfalso.
      destruct (chat_owner_id_references db c H Hc Hnn) as (u & Hu & Hid).
      pose proof (find_none _ _ Hfind u Hu) as Hno. simpl in Hno.
      rewrite Hid, Value_eqb_refl in Hno. discriminate Hno. }
  split; [| exact Hpresent]. split.
  - intro Hnone. destruct (field Chat c "owner_id") eqn:Ho; [reflexivity | |];
      destruct (Hpresent eq_refl) as (u & Hsome & _); congruence.
  - intro Hnull. rewrite Chat_owner_eq, Hnull. reflexivity.
Qed.

Lemma owner_loaded_iff_owner_id_present_witness :
  exists u, Chat_owner alice_db hello = Some u /\ In u (alice_db "users")
            /\ field User u "id" = field Chat hello "owner_id".
Proof.
  apply (proj2 (owner_loaded_iff_owner_id_present alice_db hello
                  eq_refl (or_introl eq_refl))).
  reflexivity.
Defined.

(** X6: in a valid state, the [chats] collections of two different stored
    users share no chat. *)
Theorem chats_of_users_disjoint (db : DB) (u1 u2 c : Row) :
  valid_db db = true -> In u1 (db "users") -> In u2 (db "users") ->
  In c (User_chats db u1) -> In c (User_chats db u2) -> u1 = u2.
Proof.
  intros H H1 H2 Hc1 Hc2.
  rewrite User_chats_eq in Hc1, Hc2.
  apply filter_In in Hc1. apply filter_In in Hc2.
  destruct Hc1 as [_ Hc1]. destruct Hc2 as [_ Hc2].
  apply andb_true_iff in Hc1. apply andb_true_iff in Hc2.
  destruct Hc1 as [_ E1]. destruct Hc2 as [_ E2].
  apply Value_eqb_eq in E1. apply Value_eqb_eq in E2.
  apply (user_id_inj db u1 u2 H H1 H2). congruence.
Qed.

Lemma chats_of_users_disjoint_witness : alice = alice.
Proof.
  apply (chats_of_users_disjoint alice_db alice alice hello).
  - reflexivity.
  - left; reflexivity.
  - left; reflexivity.
  - left; reflexivity.
  - left; reflexivity.
Defined.

(** X7: one user may own any number of chats, and chats may repeat a
    message: for every [n] and [s] the state in which [alice] owns [n] chats
    with the message [s] is valid, her [chats] are all the stored chats, and
    there are [n] of them. *)
Theorem one_user_many_chats (n : nat) (s : string) :
  valid_db (busy_db n s) = true
  /\ User_chats (busy_db n s) alice = busy_db n s "chats"
  /\ List.length (User_chats (busy_db n s) alice) = n
  /\ map (fun c => field Chat c "message") (busy_db n s "chats") = repeat (StrV s) n.
Proof.
  assert (Hall : User_chats (busy_db n s) alice = busy_db n s "chats").
  { rewrite User_chats_eq. apply filter_all. intros c Hc.
    change (busy_db n s "chats") with (map (chat_of s) (seq 0 n)) in Hc.
    apply in_map_iff in Hc. destruct Hc as (i & <- & _). reflexivity. }
  split; [| split; [exact Hall | split]].
  - apply valid_db_tables.
    + reflexivity.
    + unfold table_ok.
      change (rows (busy_db n s) Chat) with (map (chat_of s) (seq 0 n)).
      rewrite !andb_true_iff. repeat split.
      * apply forallb_forall. intros c Hc.
        apply in_map_iff in Hc. destruct Hc as (i & <- & _). reflexivity.
      * apply pk_ok_numbered. intro i. reflexivity.
  - rewrite Hall. change (busy_db n s "chats") with (map (chat_of s) (seq 0 n)).
    now rewrite length_map, length_seq.
  - change (busy_db n s "chats") with (map (chat_of s) (seq 0 n)).
    rewrite map_map. exact (map_const_seq (StrV s) 0 n).
Qed.

(** X8: any number of users may lack both [username] and [email], and may
    share one [hashed_password]: for every [n] and [h] the state with [n]
    such users is valid. *)
Theorem many_anonymous_users (n : nat) (h : string) :
  valid_db (crowd_db n h) = true
  /\ List.length (crowd_db n h "users") = n
  /\ map (fun u => (field User u "username", field User u "email",
                    field User u "hashed_password"))
         (crowd_db n h "users")
     = repeat (Null, Null, StrV h) n.
Proof.
  split; [| split].
  - apply valid_db_tables.
    + unfold table_ok.
      change (rows (crowd_db n h) User) with (map (anon_of h) (seq 0 n)).
      rewrite !andb_true_iff. repeat split.
      * apply forallb_forall. intros u Hu.
        apply in_map_iff in Hu. destruct Hu as (i & <- & _). reflexivity.
      * unfold unique_ok. apply forallb_forall. intros [name c] Hin.
        simpl in Hin.
        destruct Hin as [E | [E | [E | [E | []]]]]; injection E as <- <-;
          try reflexivity; simpl;
          rewrite filter_none; try reflexivity;
          intros v Hv; apply in_map_iff in Hv; destruct Hv as (u & <- & Hu);
          apply in_map_iff in Hu; destruct Hu as (i & <- & _); reflexivity.
      * apply pk_ok_numbered. intro i. reflexivity.
    + reflexivity.
  - change (crowd_db n h "users") with (map (anon_of h) (seq 0 n)).
    now rewrite length_map, length_seq.
  - change (crowd_db n h "users") with (map (anon_of h) (seq 0 n)).
    rewrite map_map. exact (map_const_seq (Null, Null, StrV h) 0 n).
Qed.

(** ** Creating objects that break a declared constraint *)

(** X9: a user cannot be created with a [username] that a stored user
    already has: whatever else is given, the insert is refused. *)
Theorem insert_refuses_taken_username (db : DB) (kw : list (string * Value))
                                      (u : Row) (s : string) :
  In u (db "users") -> field User u "username" = StrV s ->
  kw_get kw "username" = Some (StrV s) ->
  insert db User kw = None.
Proof.
  intros Hu Hname Hkw. unfold insert.
  destruct (construct User kw) as [r|] eqn:Hc; [| reflexivity]. cbv zeta.
  destruct (new_user_fields (rows db User) kw r Hc) as [Hf _].
  unfold kw_default in Hf. rewrite Hkw in Hf.
  change (tablename User) with "users".
  rewrite (repeated_unique_value_invalid db "username"
             (Column (String None) [] [("unique", true); ("index", true)])
             (rows db User) u); auto.
  - simpl; auto.
  - now rewrite Hname.
  - now rewrite Hf, Hname.
Qed.

Lemma insert_refuses_taken_username_witness :
  insert alice_db User [("username", StrV "alice"); ("email", StrV "new@x.com")] = None.
Proof.
  apply (insert_refuses_taken_username alice_db _ alice "alice").
  - left; reflexivity.
  - reflexivity.
  - reflexivity.
Defined.

(** X10: a user cannot be created with an [email] that a stored user
    already has. *)
Theorem insert_refuses_taken_email (db : DB) (kw : list (string * Value))
                                   (u : Row) (s : string) :
  In u (db "users") -> field User u "email" = StrV s ->
  kw_get kw "email" = Some (StrV s) ->
  insert db User kw = None.
Proof.
  intros Hu Hmail Hkw. unfold insert.
  destruct (construct User kw) as [r|] eqn:Hc; [| reflexivity]. cbv zeta.
  destruct (new_user_fields (rows db User) kw r Hc) as [_ Hf].
  unfold kw_default in Hf. rewrite Hkw in Hf.
  change (tablename User) with "users".
  rewrite (repeated_unique_value_invalid db "email"
             (Column (String None) [] [("unique", true); ("index", true)])
             (rows db User) u); auto.
  - simpl; auto.
  - now rewrite Hmail.
  - now rewrite Hf, Hmail.
Qed.

Lemma insert_refuses_taken_email_witness :
  insert alice_db User [("username", StrV "carol"); ("email", StrV "a@x.com")] = None.
Proof.
  apply (insert_refuses_taken_email alice_db _ alice "a@x.com").
  - left; reflexivity.
  - reflexivity.
  - reflexivity.
Defined.



(** ** Creating a chat that keeps every declared constraint *)







(** ** Creating a user that keeps every declared constraint *)




